(** * openstorage: driver registry, cluster database and NFS driver

    A shallow embedding of
      - [cluster/database.go]  (readDatabase, writeDatabase),
      - [volume/volume.go]     (the driver registry: Register, New, Get, Shutdown),
      - the NFS volume driver  (Init, Create, Delete, Mount, Unmount, Alerts,
                                Status, Shutdown),
      - [api/types.go]         (the volume data model),
    followed by the properties established about them.

    Go values are modelled as follows.  A result [(T, error)] is a pair
    [T * option error] where [None] is the nil error.  A [[]byte] is a
    [list byte], a Go [string] a [string].  A Go [map[string]T] is a
    [gmap string T].  Calls that leave the process (the key-value store, the
    JSON codec, system calls, the uuid generator, the clock) are operations of
    an interface, passed as a type class; each has an in-memory instance
    further down on which the functions can be run. *)

From Stdlib Require Import ZArith List.
From Stdlib.Strings Require Import String Ascii Byte.
From stdpp Require Import base option list strings gmap fin_maps.

Local Open Scope string_scope.
Local Open Scope Z_scope.

(** ** Go preliminaries *)

(** The [error] interface.  The package-level sentinels of [volume/volume.go]
    are distinct values (Go compares them by identity); every other error
    (errors.New at a call site, fmt.Errorf, an error of the store, of the
    codec or of the operating system) carries its message. *)
Inductive error : Type :=
| ErrExist
| ErrDriverNotFound
| ErrEnoEnt
| ErrEnomem
| ErrEinval
| ErrVolDetached
| ErrVolAttached
| ErrVolHasSnaps
| ErrNotSupported
| errorString (msg : string).

(** [err.Error()] *)
Definition Error (e : error) : string :=
  match e with
  | ErrExist => "Driver already exists"
  | ErrDriverNotFound => "Driver implementation not found"
  | ErrEnoEnt => "Volume does not exist."
  | ErrEnomem => "Out of memory."
  | ErrEinval => "Invalid argument"
  | ErrVolDetached => "Volume is detached"
  | ErrVolAttached => "Volume is attached"
  | ErrVolHasSnaps => "Volume has snapshots associated"
  | ErrNotSupported => "Operation not supported"
  | errorString msg => msg
  end.

(** How a call that may panic ends.  In both cases [a] is the state the call
    leaves behind: what a caller that recovers from the panic goes on
    with. *)
Inductive outcome (A : Type) : Type :=
| Returned (a : A)
| Panicked (a : A).

Arguments Returned {A} a.
Arguments Panicked {A} a.

Definition state_of {A : Type} (o : outcome A) : A :=
  match o with
  | Returned a => a
  | Panicked a => a
  end.

Abbreviation bytes := (list byte).

(** A string literal converted to [[]byte]. *)
Definition bytes_of (s : string) : bytes := list_byte_of_string s.

Module strings.

(** [strings.HasPrefix(s, prefix)] *)
Fixpoint HasPrefix (s prefix : string) : bool :=
  match prefix, s with
  | EmptyString, _ => true
  | String _ _, EmptyString => false
  | String c prefix', String d s' =>
      if Ascii.eqb c d then HasPrefix s' prefix' else false
  end.

(** [strings.Contains(s, substr)]: [substr] occurs somewhere in [s]. *)
Fixpoint Contains (s substr : string) : bool :=
  HasPrefix s substr ||
  match s with
  | EmptyString => false
  | String _ s' => Contains s' substr
  end.

(** [strings.HasSuffix(s, suffix)]:
    [len(s) >= len(suffix) && s[len(s)-len(suffix):] == suffix] *)
Definition HasSuffix (s suffix : string) : bool :=
  (String.length suffix <=? String.length s)%nat &&
  String.eqb
    (String.substring (String.length s - String.length suffix)
                      (String.length suffix) s)
    suffix.

(** [strings.TrimSuffix(s, suffix)] *)
Definition TrimSuffix (s suffix : string) : string :=
  if HasSuffix s suffix
  then String.substring 0 (String.length s - String.length suffix) s
  else s.

End strings.

Module bytes.

(** [bytes.Compare(a, b)]: lexicographic comparison, -1, 0 or +1. *)
Fixpoint Compare (a b : bytes) : Z :=
  match a, b with
  | [], [] => 0
  | [], _ :: _ => -1
  | _ :: _, [] => 1
  | x :: a', y :: b' =>
      match N.compare (Byte.to_N x) (Byte.to_N y) with
      | Lt => -1
      | Gt => 1
      | Eq => Compare a' b'
      end
  end.

End bytes.

(** ** The key-value store (package kvdb, an external collaborator) *)

Module kvdb.

(** The part of [kvdb.KVPair] the code reads. *)
Record KVPair : Type := { Key : string; Value : bytes }.

(** The two operations of the [kvdb.Kvdb] interface the cluster database
    calls, over a store state [S].  [Get] is a read; [Put] returns the new
    store. *)
Class Kvdb (S : Type) : Type := {
  Get : string -> S -> option KVPair * option error;
  Put : string -> bytes -> Z -> S -> (option KVPair * option error) * S
}.

(** An in-memory store: a finite map from keys to values.  A missing key is
    reported the way the etcd backend words it. *)
Definition mem_Get (key : string) (s : gmap string bytes)
  : option KVPair * option error :=
  match s !! key with
  | Some v => (Some {| Key := key; Value := v |}, None)
  | None => (None, Some (errorString ("100: Key not found (/" ++ key ++ ")")))
  end.

Definition mem_Put (key : string) (value : bytes) (ttl : Z) (s : gmap string bytes)
  : (option KVPair * option error) * gmap string bytes :=
  ((Some {| Key := key; Value := value |}, None), <[key := value]> s).

#[global] Instance MemKV : Kvdb (gmap string bytes) :=
  {| Get := mem_Get; Put := mem_Put |}.

End kvdb.

(** ** The JSON codec (package encoding/json, an external collaborator) *)

Module json.

(** [json.Marshal(v)] and [json.Unmarshal(data, &v)] at a type [A].
    [Unmarshal] decodes into an existing value and returns the value as it is
    after the call, together with the error. *)
Class Codec (A : Type) : Type := {
  Marshal : A -> bytes * option error;
  Unmarshal : bytes -> A -> A * option error
}.

End json.

(** ** The cluster database (cluster/database.go) *)

Module cluster.

(** Modelled from the spec: the declarations of [Database], [Info], [Node]
    and [StatusInit] are not in the files at hand.  The record holds the
    cluster [Info], whose status ranges over a small set that includes
    "initializing" ([StatusInit]), and a table from node identifier to an
    opaque [Node] record. *)
Class Types : Type := {
  ClusterStatus : Type;
  StatusInit : ClusterStatus;
  Node : Type
}.

Record Info `{Types} : Type := { Status : ClusterStatus }.

Record Database `{Types} : Type := {
  Cluster : Info;
  Nodes : gmap string Node
}.

Section database.
Context `{Types} {S : Type} `{!kvdb.Kvdb S} `{!json.Codec Database}.

(** The composite literal [readDatabase] starts from:
    [Database{Cluster: Info{Status: StatusInit}, Nodes: make(map[string]Node)}] *)
Definition initDatabase : Database :=
  {| Cluster := {| Status := StatusInit |}; Nodes := ∅ |}.

(** [err != nil && !strings.Contains(err.Error(), "100: Key not found")] *)
Definition otherStoreError (err : option error) : bool :=
  match err with
  | Some e => negb (strings.Contains (Error e) "100: Key not found")
  | None => false
  end.

(** [func readDatabase() (Database, error)]; the store is the one
    [kv.Instance()] returns.  Every path ends at the label [done], which
    returns the current [db] and [err]. *)
Definition readDatabase (s : S) : Database * option error :=
  let db := initDatabase in
  let '(kv, err) := kvdb.Get "cluster/database" s in
  if otherStoreError err then (db, err)
  else
    match kv with
    | None => (db, None)
    | Some kv =>
        if bytes.Compare (kvdb.Value kv) (bytes_of "{}") =? 0 then (db, None)
        else json.Unmarshal (kvdb.Value kv) db
    end.

(** [func writeDatabase(db *Database) error] *)
Definition writeDatabase (db : Database) (s : S) : option error * S :=
  let '(b, err) := json.Marshal db in
  match err with
  | Some e => (Some e, s)
  | None =>
      let '((_, err), s') := kvdb.Put "cluster/database" b 0 s in
      (err, s')
  end.

End database.

(** *** A small codec to run the functions on

    A deployment with three cluster states and nodes known by their
    address, and a codec for it that writes and reads the layout
    [{"Cluster":{"Status":d},"Nodes":{"id":"addr",...}}].  In a string,
    printable ASCII is written as it is, and a byte that occurs in no UTF-8
    text is written as the escape of the replacement character U+FFFD, which
    reads back as the three bytes of that character: this is what
    encoding/json does with a Go string that is not valid UTF-8.  Any other
    character (one that encoding/json escapes, or that may belong to a
    multi-byte sequence) is refused by both directions.  An object without
    members leaves the target as it is, and decoded node entries are added
    to the target's table, as encoding/json does for a struct and a map. *)

Inductive DemoStatus : Type := DemoInit | DemoOk | DemoOffline.

#[global] Instance DemoTypes : Types :=
  {| ClusterStatus := DemoStatus; StatusInit := DemoInit; Node := string |}.

Abbreviation DemoDatabase := (@Database DemoTypes).

Definition dquote : ascii := "034"%char.
Definition backslash : ascii := "092"%char.

Definition quoted (s : string) : string :=
  String dquote (s ++ String dquote EmptyString).

(** Printable ASCII that encoding/json writes without escape. *)
Definition plain (c : ascii) : bool :=
  let n := N_of_ascii c in
  (32 <=? n)%N && (n <? 128)%N &&
  negb (Ascii.eqb c dquote) && negb (Ascii.eqb c backslash) &&
  negb (Ascii.eqb c "<") && negb (Ascii.eqb c ">") && negb (Ascii.eqb c "&").

(** A byte that no UTF-8 encoding contains: C0, C1, and F5 to FF. *)
Definition never_utf8 (c : ascii) : bool :=
  let n := N_of_ascii c in
  (n =? 192)%N || (n =? 193)%N || (245 <=? n)%N.

(** The escape written for such a byte, and the UTF-8 encoding EF BF BD of
    the character it reads back as. *)
Definition escape_fffd : string := String backslash "ufffd".

Definition replacement : string :=
  String "239" (String "191" (String "189" EmptyString)).

(** The content of the JSON string for [s], if the codec takes [s]. *)
Fixpoint encode_string (s : string) : option string :=
  match s with
  | EmptyString => Some EmptyString
  | String c s' =>
      out ← encode_string s';
      if plain c then Some (String c out)
      else if never_utf8 c then Some (escape_fffd ++ out)
      else None
  end.

Definition encode_member (kv : string * string) : option (string * string) :=
  k ← encode_string kv.1; v ← encode_string kv.2; Some (k, v).

Definition status_digit (st : DemoStatus) : string :=
  match st with DemoInit => "0" | DemoOk => "1" | DemoOffline => "2" end.

Definition member (kv : string * string) : string :=
  quoted kv.1 ++ ":" ++ quoted kv.2.

Fixpoint members (l : list (string * string)) : string :=
  match l with
  | [] => ""
  | [kv] => member kv
  | kv :: l' => member kv ++ "," ++ members l'
  end.

Definition demo_Marshal (db : DemoDatabase) : bytes * option error :=
  match mapM encode_member (map_to_list (Nodes db : gmap string string)) with
  | Some l =>
      (bytes_of ("{" ++ quoted "Cluster" ++ ":{" ++ quoted "Status" ++ ":"
                 ++ status_digit (Status (Cluster db)) ++ "}," ++ quoted "Nodes"
                 ++ ":{" ++ members l ++ "}}"), None)
  | None => ([], Some (errorString "json: unsupported value"))%list
  end.

(** [s] without its prefix [lit], if it has it. *)
Fixpoint strip (lit s : string) : option string :=
  match lit, s with
  | EmptyString, _ => Some s
  | String _ _, EmptyString => None
  | String c lit', String d s' =>
      if Ascii.eqb c d then strip lit' s' else None
  end.

(** The string up to the closing quote, decoded, and what follows the
    quote. *)
Fixpoint until_quote (fuel : nat) (s : string) : option (string * string) :=
  match fuel, s with
  | O, _ => None
  | _, EmptyString => None
  | Datatypes.S fuel', String c s' =>
      if Ascii.eqb c dquote then Some (EmptyString, s')
      else if Ascii.eqb c backslash then
        r ← strip "ufffd" s';
        '(w, r') ← until_quote fuel' r;
        Some (replacement ++ w, r')
      else if plain c then
        '(w, r) ← until_quote fuel' s'; Some (String c w, r)
      else None
  end.

Definition parse_string (s : string) : option (string * string) :=
  r ← strip (String dquote EmptyString) s;
  until_quote (String.length r) r.

Definition parse_status (s : string) : option (DemoStatus * string) :=
  match s with
  | String "0" r => Some (DemoInit, r)
  | String "1" r => Some (DemoOk, r)
  | String "2" r => Some (DemoOffline, r)
  | _ => None
  end.

(** The members of the node table up to and including its closing brace. *)
Fixpoint parse_members (fuel : nat) (s : string) (acc : gmap string string)
  : option (gmap string string * string) :=
  match fuel with
  | O => None
  | Datatypes.S fuel' =>
      '(k, r) ← parse_string s;
      r ← strip ":" r;
      '(v, r) ← parse_string r;
      match strip "," r with
      | Some r' => parse_members fuel' r' (<[k := v]> acc)
      | None => r' ← strip "}" r; Some (<[k := v]> acc, r')
      end
  end.

Definition parse_nodes (s : string) (acc : gmap string string)
  : option (gmap string string * string) :=
  match strip "}" s with
  | Some r => Some (acc, r)
  | None => parse_members (String.length s) s acc
  end.

Definition demoRecord (st : DemoStatus) (nodes : gmap string string)
  : DemoDatabase :=
  {| Cluster := {| Status := st |}; Nodes := nodes |}.

Definition parse_database (s : string) (target : DemoDatabase)
  : option DemoDatabase :=
  r ← strip ("{" ++ quoted "Cluster" ++ ":{" ++ quoted "Status" ++ ":") s;
  '(st, r) ← parse_status r;
  r ← strip ("}," ++ quoted "Nodes" ++ ":{") r;
  '(nodes, r) ← parse_nodes r (Nodes target : gmap string string);
  r ← strip "}" r;
  match r with
  | EmptyString => Some (demoRecord st nodes)
  | String _ _ => None
  end.

Definition demo_Unmarshal (data : bytes) (target : DemoDatabase)
  : DemoDatabase * option error :=
  let s := string_of_list_byte data in
  if String.eqb s "{}" then (target, None)
  else
    match parse_database s target with
    | Some db => (db, None)
    | None => (target, Some (errorString "invalid character in JSON input"))
    end.

#[global] Instance DemoCodec : json.Codec DemoDatabase :=
  {| json.Marshal := demo_Marshal; json.Unmarshal := demo_Unmarshal |}.

(** Two records and two stores used below. *)
Definition demoDatabase : DemoDatabase :=
  demoRecord DemoOk {[ "node-1" := "10.0.0.1"; "node-2" := "10.0.0.2" ]}.

(** A record whose node id is the single byte FF, which is not UTF-8, and
    the record with the replacement character for id. *)
Definition invalidUtf8Database : DemoDatabase :=
  demoRecord DemoOk {[ String "255" EmptyString := "10.0.0.1" ]}.

Definition replacedDatabase : DemoDatabase :=
  demoRecord DemoOk {[ replacement := "10.0.0.1" ]}.

(** A record the codec refuses: the address of its node holds a quote. *)
Definition unencodableDatabase : DemoDatabase :=
  demoRecord DemoOk {[ "node-1" := String dquote EmptyString ]}.

Definition emptyStore : gmap string bytes := ∅.

Definition storeHolding (value : string) : gmap string bytes :=
  {[ "cluster/database" := bytes_of value ]}.

End cluster.

(** ** The volume data model (api/types.go) *)

Module api.

Abbreviation VolumeID := string.
Definition BadVolumeID : VolumeID := "".

Abbreviation SnapID := string.
Definition BadSnapID : SnapID := "".

Abbreviation VolumeCos := Z.
Definition VolumeCosNone : VolumeCos := 0.
Definition VolumeCosMedium : VolumeCos := 5.
Definition VolumeCosMax : VolumeCos := 9.

Abbreviation VolumeStatus := string.
Definition NotPresent : VolumeStatus := "NotPresent".
Definition Up : VolumeStatus := "Up".
Definition Down : VolumeStatus := "Down".
Definition Degraded : VolumeStatus := "Degraded".

(** [VolumeState]: one bit per state ([1 << iota]). *)
Abbreviation VolumeState := Z.
Definition VolumePending : VolumeState := Z.shiftl 1 0.
Definition VolumeAvailable : VolumeState := Z.shiftl 1 1.
Definition VolumeAttached : VolumeState := Z.shiftl 1 2.
Definition VolumeDetached : VolumeState := Z.shiftl 1 3.
Definition VolumeError : VolumeState := Z.shiftl 1 4.
Definition VolumeDeleted : VolumeState := Z.shiftl 1 5.

Definition VolumeStateAny : VolumeState :=
  Z.lor VolumePending (Z.lor VolumeAvailable (Z.lor VolumeAttached
    (Z.lor VolumeDetached (Z.lor VolumeError VolumeDeleted)))).

Abbreviation Labels := (gmap string string).

Record VolumeLocator : Type := {
  Name : string;
  VolumeLabels : Labels
}.

Record CreateOptions : Type := {
  FailIfExists : bool;
  CreateFromSnap : SnapID
}.

Abbreviation Filesystem := string.
Definition FsNone : Filesystem := "none".
Definition FsExt4 : Filesystem := "ext4".
Definition FsXfs : Filesystem := "xfs".
Definition FsZfs : Filesystem := "zfs".
Definition FsNfs : Filesystem := "nfs".

(** [VolumeSpec]; in a module of its own because [Volume] has a [Format]
    field too. *)
Module VolumeSpec.
Record t : Type := {
  Ephemeral : bool;
  Size : Z;
  Format : Filesystem;
  BlockSize : Z;
  HALevel : Z;
  Cos : VolumeCos;
  Dedupe : bool;
  SnapshotInterval : Z;
  ConfigLabels : Labels
}.
End VolumeSpec.

Abbreviation MachineID := string.
Definition MachineNone : MachineID := "".

(** [time.Time], as an instant on an integer clock. *)
Abbreviation Time := Z.

(** [Volume].  [Spec] is a pointer in the source: [None] is nil. *)
Record Volume : Type := {
  ID : VolumeID;
  Locator : VolumeLocator;
  Ctime : Time;
  Spec : option VolumeSpec.t;
  Usage : Z;
  LastScan : Time;
  Format : Filesystem;
  Status : VolumeStatus;
  State : VolumeState;
  AttachedOn : MachineID;
  DevicePath : string;
  AttachPath : string;
  ReplicaSet : list MachineID;
  Error : string
}.

(** [VolumeAlerts], a struct without fields. *)
Record VolumeAlerts : Type := mkVolumeAlerts {}.

(** The assignment [v.AttachPath = path]. *)
Definition set_AttachPath (path : string) (v : Volume) : Volume :=
  {| ID := ID v; Locator := Locator v; Ctime := Ctime v; Spec := Spec v;
     Usage := Usage v; LastScan := LastScan v; Format := Format v;
     Status := Status v; State := State v; AttachedOn := AttachedOn v;
     DevicePath := DevicePath v; AttachPath := path;
     ReplicaSet := ReplicaSet v; Error := Error v |}.

End api.

(** ** The driver registry (volume/volume.go) *)

Module volume.

Abbreviation DriverParams := (gmap string string).

Abbreviation DriverType := Z.
Definition File : DriverType := Z.shiftl 1 0.
Definition Block : DriverType := Z.shiftl 1 1.
Definition Object : DriverType := Z.shiftl 1 2.
Definition Clustered : DriverType := Z.shiftl 1 3.

(** What the registry needs of the [VolumeDriver] interface: the nil
    interface value, which [New] and [Get] return next to an error, and the
    call [v.Shutdown()], which acts on the world [W] outside the registry
    (the two maps are private to the package, so a driver cannot reach
    them).  The call has no result when it panics, which is what Go does,
    before any method runs, when [v] is the nil interface value; the method
    of a driver itself is taken to return. *)
Class VolumeDriver (W D : Type) : Type := {
  nil : D;
  drv_Shutdown : D -> W -> option W;
  drv_Shutdown_nil : forall v w, drv_Shutdown v w = None <-> v = nil
}.

(** [type InitFunc func(params DriverParams) (VolumeDriver, error)]; an
    initializer may act on the world. *)
Abbreviation InitFunc W D := (DriverParams -> W -> (D * option error) * W).

Section registry.
Context {W D : Type} `{!VolumeDriver W D}.

(** The package-level maps [instances] and [drivers]. *)
Record Registry : Type := {
  instances : gmap string D;
  drivers : gmap string (InitFunc W D)
}.

(** [func init()] *)
Definition init : Registry := {| instances := ∅; drivers := ∅ |}.

(** [func Get(name string) (VolumeDriver, error)] *)
Definition Get (name : string) (r : Registry) : D * option error :=
  match instances r !! name with
  | Some v => (v, None)
  | None => (nil, Some ErrDriverNotFound)
  end.

(** [func New(name string, params DriverParams) (VolumeDriver, error)] *)
Definition New (name : string) (params : DriverParams) (r : Registry) (w : W)
  : (D * option error) * (Registry * W) :=
  match instances r !! name with
  | Some _ => ((nil, Some ErrExist), (r, w))
  | None =>
      match drivers r !! name with
      | Some initFunc =>
          let '((driver, err), w') := initFunc params w in
          match err with
          | Some e => ((nil, Some e), (r, w'))
          | None =>
              ((driver, None),
               ({| instances := <[name := driver]> (instances r);
                   drivers := drivers r |}, w'))
          end
      | None => ((nil, Some ErrNotSupported), (r, w))
      end
  end.

(** [func Register(name string, initFunc InitFunc) error] *)
Definition Register (name : string) (initFunc : InitFunc W D) (r : Registry)
  : option error * Registry :=
  match drivers r !! name with
  | Some _ => (Some ErrExist, r)
  | None =>
      (None, {| instances := instances r;
                drivers := <[name := initFunc]> (drivers r) |})
  end.

(** Go does not fix the order in which [range] visits a map: [order] is the
    enumeration the runtime happens to pick. *)
Variable order : gmap string D -> list (string * D).

(** The loop [for _, v := range instances { v.Shutdown() }] over the
    entries still to visit: a call that panics ends it, the entries after
    it are not visited. *)
Fixpoint shutdownLoop (entries : list (string * D)) (w : W) : outcome W :=
  match entries with
  | [] => Returned w
  | kv :: entries' =>
      match drv_Shutdown kv.2 w with
      | Some w' => shutdownLoop entries' w'
      | None => Panicked w
      end
  end.

(** [func Shutdown()].  The function assigns to neither map; the deferred
    [mutex.Unlock()] runs on return and on panic alike. *)
Definition Shutdown (r : Registry) (w : W) : outcome (Registry * W) :=
  match shutdownLoop (order (instances r)) w with
  | Returned w' => Returned (r, w')
  | Panicked w' => Panicked (r, w')
  end.

(** A call of a client of the package, and a run of several in sequence; a
    client that recovers from a panic of [Shutdown] goes on with the state
    the panic left. *)
Inductive call : Type :=
| CallRegister (name : string) (initFunc : InitFunc W D)
| CallNew (name : string) (params : DriverParams)
| CallGet (name : string)
| CallShutdown.

Definition exec (st : Registry * W) (c : call) : Registry * W :=
  match c with
  | CallRegister name initFunc => ((Register name initFunc st.1).2, st.2)
  | CallNew name params => (New name params st.1 st.2).2
  | CallGet name => st
  | CallShutdown => state_of (Shutdown st.1 st.2)
  end.

Definition run (cs : list call) (st : Registry * W) : Registry * W :=
  foldl exec st cs.

End registry.

Arguments Registry W D : clear implicits.

(** *** A driver that only records

    An instance is a label, or nothing for the nil interface value; the world
    is the list of the labels whose [Shutdown()] ran, in order. *)

Definition recordShutdown (v : option string) (log : list string)
  : option (list string) :=
  match v with
  | Some label => Some (log ++ [label])%list
  | None => None
  end.

Lemma recordShutdown_nil (v : option string) (log : list string) :
  recordShutdown v log = None <-> v = None.
Proof. destruct v; simpl; split; intros Heq; congruence. Qed.

#[global] Instance RecordingDriver : VolumeDriver (list string) (option string) :=
  {| nil := None;
     drv_Shutdown := recordShutdown;
     drv_Shutdown_nil := recordShutdown_nil |}.




End volume.

(** ** The NFS driver *)

Module nfs.
Import api.

Definition Name : string := "nfs".
Definition Type_ : volume.DriverType := volume.File.
Definition NfsDBKey : string := "OpenStorageNFSKey".
Definition nfsMountPath : string := "/var/lib/openstorage/nfs/".

(** [syscall.MS_BIND] *)
Definition MS_BIND : Z := 4096.

(** The permission bits [0744] the driver creates directories with. *)
Definition perm0744 : Z := 7 * 64 + 4 * 8 + 4.

(** What the driver calls outside the process, over a world [W]: the
    operating system, the uuid generator and the clock.  Each call returns
    its result and the world after it. *)
Class Sys (W : Type) : Type := {
  os_MkdirAll : string -> Z -> W -> option error * W;
  syscall_Mount : string -> string -> string -> Z -> string -> W -> option error * W;
  syscall_Unmount : string -> Z -> W -> option error * W;
  uuid_New : W -> string * W;
  time_Now : W -> Time * W
}.

(** Modelled from the spec: [volume.DefaultEnumerator] is not in the files at
    hand.  The driver persists one record per volume through it; [GetVol]
    reads the record of an id, [CreateVol] and [UpdateVol] write one. *)
Class Enumerator (W : Type) : Type := {
  GetVol : VolumeID -> W -> Volume * option error;
  CreateVol : Volume -> W -> option error * W;
  UpdateVol : Volume -> W -> option error * W
}.

(** [type driver struct]; the embedded enumerator keeps its records in the
    world. *)
Record driver : Type := {
  nfsServer : string;
  nfsPath : string
}.

Definition newline : string := String "010"%char EmptyString.

Section driver.
Context {W : Type} `{!Sys W} `{!Enumerator W}.

(** [func Init(params volume.DriverParams) (volume.VolumeDriver, error)];
    the result is [None] for the nil interface value. *)
Definition Init (params : volume.DriverParams) (w : W)
  : (option driver * option error) * W :=
  match params !! "path" with
  | None => ((None, Some (errorString "No NFS path provided")), w)
  | Some path =>
      let server := default "" (params !! "server") in
      let inst := {| nfsServer := server; nfsPath := path |} in
      let '(err, w) := os_MkdirAll nfsMountPath perm0744 w in
      match err with
      | Some e => ((None, Some e), w)
      | None =>
          let '(_, w) := syscall_Unmount nfsMountPath 0 w in
          let '(err, w) :=
            if negb (String.eqb server "")
            then syscall_Mount (":" ++ nfsPath inst) nfsMountPath "nfs" 0
                               ("nolock,addr=" ++ nfsServer inst) w
            else syscall_Mount (nfsPath inst) nfsMountPath "" MS_BIND "" w in
          match err with
          | Some e => ((None, Some e), w)
          | None => ((Some inst, None), w)
          end
      end
  end.

(** [func (d *driver) String() string] *)
Definition String_ (d : driver) : string := Name.

(** [func (d *driver) Type() volume.DriverType] *)
Definition Type' (d : driver) : volume.DriverType := Type_.

(** [func (d *driver) Create(locator, opt, spec) (api.VolumeID, error)] *)
Definition Create (d : driver) (locator : VolumeLocator) (opt : CreateOptions)
    (spec : VolumeSpec.t) (w : W) : (VolumeID * option error) * W :=
  if negb (String.eqb (VolumeSpec.Format spec) "nfs")
     && negb (String.eqb (VolumeSpec.Format spec) "")
  then ((BadVolumeID,
         Some (errorString ("Unsupported filesystem format: "
                            ++ VolumeSpec.Format spec))), w)
  else
    let '(volumeID, w) := uuid_New w in
    let volumeID := strings.TrimSuffix volumeID newline in
    let '(err, w) := os_MkdirAll (nfsMountPath ++ volumeID) perm0744 w in
    match err with
    | Some e => ((BadVolumeID, Some e), w)
    | None =>
        let '(ctime, w) := time_Now w in
        let '(lastScan, w) := time_Now w in
        let v := {| ID := volumeID;
                    Locator := locator;
                    Ctime := ctime;
                    Spec := Some spec;
                    Usage := 0;
                    LastScan := lastScan;
                    Format := "nfs";
                    Status := "";
                    State := VolumeAvailable;
                    AttachedOn := "";
                    DevicePath := nfsMountPath ++ volumeID;
                    AttachPath := "";
                    ReplicaSet := [];
                    Error := "" |} in
        let '(err, w) := CreateVol v w in
        match err with
        | Some e => ((BadVolumeID, Some e), w)
        | None =>
            let '(err, w) := UpdateVol v w in
            ((ID v, err), w)
        end
    end.

(** [func (d *driver) Unmount(volumeID api.VolumeID, mountpath string) error] *)
Definition Unmount (d : driver) (volumeID : VolumeID) (mountpath : string)
    (w : W) : option error * W :=
  let '(v, err) := GetVol volumeID w in
  match err with
  | Some e => (Some e, w)
  | None =>
      if String.eqb (AttachPath v) ""
      then (Some (errorString ("Device " ++ volumeID ++ " not mounted")), w)
      else
        let '(err, w) := syscall_Unmount (AttachPath v) 0 w in
        match err with
        | Some e => (Some e, w)
        | None => UpdateVol (set_AttachPath "" v) w
        end
  end.

(** [func (d *driver) Shutdown()] *)
Definition Shutdown (d : driver) (w : W) : W :=
  (syscall_Unmount nfsMountPath 0 w).2.

(** The call [v.Shutdown()] on an interface value that holds this driver, or
    nothing: on the nil interface value the call panics. *)
Definition callShutdown (v : option driver) (w : W) : option W :=
  match v with
  | Some d => Some (Shutdown d w)
  | None => None
  end.

Lemma callShutdown_nil (v : option driver) (w : W) :
  callShutdown v w = None <-> v = None.
Proof. destruct v; simpl; split; intros Heq; congruence. Qed.

(** The driver as a [volume.VolumeDriver]. *)
#[global] Instance nfsVolumeDriver : volume.VolumeDriver W (option driver) :=
  {| volume.nil := None;
     volume.drv_Shutdown := callShutdown;
     volume.drv_Shutdown_nil := callShutdown_nil |}.

(** [Init] at the type of a [volume.InitFunc]. *)
Definition InitFunc_Init : volume.InitFunc W (option driver) := Init.

End driver.

(** What [Delete] calls besides: [os.Remove], and the enumerator's
    [DeleteVol] (modelled from the spec like the rest of the enumerator: it
    drops the record of an id). *)
Class Remover (W : Type) : Type := {
  os_Remove : string -> W -> option error * W
}.

Class VolumeDeleter (W : Type) : Type := {
  DeleteVol : VolumeID -> W -> option error * W
}.

Section lifecycle.
Context {W : Type} `{!Sys W} `{!Enumerator W} `{!Remover W}
  `{!VolumeDeleter W}.

(** [func (d *driver) Status() [][2]string] *)
Definition Status_ (d : driver) : list (string * string) := [].

(** [func (d *driver) Delete(volumeID api.VolumeID) error]; the result of
    [os.Remove] is dropped. *)
Definition Delete (d : driver) (volumeID : VolumeID) (w : W)
  : option error * W :=
  let '(v, err) := GetVol volumeID w in
  match err with
  | Some e => (Some e, w)
  | None =>
      let '(_, w) := os_Remove (DevicePath v) w in
      let '(err, w) := DeleteVol volumeID w in
      match err with
      | Some e => (Some e, w)
      | None => (None, w)
      end
  end.

(** [func (d *driver) Mount(volumeID api.VolumeID, mountpath string) error].
    The result is [None] when the call panics: [v.Spec.Format] dereferences
    the [Spec] pointer, after the unmount of [mountpath] was issued. *)
Definition Mount (d : driver) (volumeID : VolumeID) (mountpath : string)
    (w : W) : option (option error * W) :=
  let '(v, err) := GetVol volumeID w in
  match err with
  | Some e => Some (Some e, w)
  | None =>
      let '(_, w) := syscall_Unmount mountpath 0 w in
      match Spec v with
      | None => None
      | Some spec =>
          let '(err, w) :=
            syscall_Mount (DevicePath v) mountpath (VolumeSpec.Format spec)
                          MS_BIND "" w in
          match err with
          | Some e => Some (Some e, w)
          | None => Some (UpdateVol (set_AttachPath mountpath v) w)
          end
      end
  end.

(** [func (d *driver) Alerts(volumeID api.VolumeID) (api.VolumeAlerts, error)] *)
Definition Alerts (d : driver) (volumeID : VolumeID)
  : VolumeAlerts * option error :=
  (mkVolumeAlerts, Some ErrNotSupported).

End lifecycle.

(** *** A world to run the driver on

    The system calls made are recorded in order and succeed; uuids come
    from a supply; the clock advances by one at each reading.  Volume
    records are kept per id: creating a record under an id in use fails,
    reading an id without a record fails. *)

Inductive Syscall : Type :=
| SysMkdirAll (path : string) (perm : Z)
| SysMount (source target fstype : string) (flags : Z) (data : string)
| SysUnmount (target : string) (flags : Z).

Record World : Type := {
  vols : gmap string Volume;
  trace : list Syscall;
  uuids : list string;
  clock : Z
}.

Definition with_vols (m : gmap string Volume) (w : World) : World :=
  {| vols := m; trace := trace w; uuids := uuids w; clock := clock w |}.

Definition logged (c : Syscall) (w : World) : World :=
  {| vols := vols w; trace := trace w ++ [c]; uuids := uuids w;
     clock := clock w |}.

#[global] Instance WorldSys : Sys World := {|
  os_MkdirAll path perm w := (None, logged (SysMkdirAll path perm) w);
  syscall_Mount source target fstype flags data w :=
    (None, logged (SysMount source target fstype flags data) w);
  syscall_Unmount target flags w := (None, logged (SysUnmount target flags) w);
  uuid_New w :=
    (hd "" (uuids w),
     {| vols := vols w; trace := trace w; uuids := tl (uuids w);
        clock := clock w |});
  time_Now w :=
    (clock w,
     {| vols := vols w; trace := trace w; uuids := uuids w;
        clock := clock w + 1 |})
|}.

Definition zeroVolume : Volume :=
  {| ID := ""; Locator := {| api.Name := ""; VolumeLabels := ∅ |}; Ctime := 0;
     Spec := None; Usage := 0; LastScan := 0; Format := ""; Status := "";
     State := 0; AttachedOn := ""; DevicePath := ""; AttachPath := "";
     ReplicaSet := []; Error := "" |}.

(** Modelled from the spec: the enumerator keeps one record per volume
    identifier; a locator serves to search volumes, never to identify
    them. *)
#[global] Instance WorldEnumerator : Enumerator World := {|
  GetVol id w :=
    match vols w !! id with
    | Some v => (v, None)
    | None => (zeroVolume, Some ErrEnoEnt)
    end;
  CreateVol v w :=
    match vols w !! ID v with
    | Some _ => (Some (errorString "Key already exists"), w)
    | None => (None, with_vols (<[ID v := v]> (vols w)) w)
    end;
  UpdateVol v w := (None, with_vols (<[ID v := v]> (vols w)) w)
|}.

(** Values used below: a world, a driver on a bind-mounted export, a
    locator, a spec and the two settings of [FailIfExists]. *)
Definition world0 : World :=
  {| vols := ∅; trace := []; uuids := ["uuid-1"; "uuid-2"; "uuid-3"];
     clock := 1000 |}.

Definition bindDriver : driver := {| nfsServer := ""; nfsPath := "/export" |}.

Definition locatorVol1 : VolumeLocator :=
  {| api.Name := "vol1"; VolumeLabels := ∅ |}.

Definition specNfs : VolumeSpec.t :=
  {| VolumeSpec.Ephemeral := false; VolumeSpec.Size := 1024;
     VolumeSpec.Format := "nfs"; VolumeSpec.BlockSize := 0;
     VolumeSpec.HALevel := 0; VolumeSpec.Cos := VolumeCosNone;
     VolumeSpec.Dedupe := false; VolumeSpec.SnapshotInterval := 0;
     VolumeSpec.ConfigLabels := ∅ |}.

Definition failIfExists : CreateOptions :=
  {| FailIfExists := true; CreateFromSnap := BadSnapID |}.

Definition reuseIfExists : CreateOptions :=
  {| FailIfExists := false; CreateFromSnap := BadSnapID |}.

(** The world after a first volume was created for [locatorVol1]. *)
Definition world1 : World :=
  (Create bindDriver locatorVol1 reuseIfExists specNfs world0).2.

(** A volume mounted at "/mnt/vol1", and a world holding its record. *)
Definition mountedVolume : Volume :=
  set_AttachPath "/mnt/vol1"
    {| ID := "uuid-1"; Locator := locatorVol1; Ctime := 1000;
       Spec := Some specNfs; Usage := 0; LastScan := 1001; Format := "nfs";
       Status := ""; State := VolumeAvailable; AttachedOn := "";
       DevicePath := nfsMountPath ++ "uuid-1"; AttachPath := "";
       ReplicaSet := []; Error := "" |}.

Definition worldMounted : World :=
  with_vols {[ "uuid-1" := mountedVolume ]} world0.

(** The registry after the package's [init()] registered [Init] under
    [Name], and the parameters of a bind mount. *)
Definition nfsRegistry : volume.Registry World (option driver) :=
  (volume.Register Name InitFunc_Init volume.init).2.

Definition bindParams : volume.DriverParams := {[ "path" := "/export" ]}.

(** Removing a directory succeeds and leaves no mark in this world, which
    keeps no directory tree.  Dropping the record of an id without record
    fails the way the store words a missing key. *)
#[global] Instance WorldRemover : Remover World := {|
  os_Remove path w := (None, w)
|}.

#[global] Instance WorldVolumeDeleter : VolumeDeleter World := {|
  DeleteVol id w :=
    match vols w !! id with
    | Some _ => (None, with_vols (delete id (vols w)) w)
    | None => (Some (errorString "100: Key not found"), w)
    end
|}.

(** The parameters of a mount from an NFS server, and a record without
    registered path. *)
Definition serverParams : volume.DriverParams :=
  {[ "path" := "/export"; "server" := "10.0.0.9" ]}.

Definition specExt4 : VolumeSpec.t :=
  {| VolumeSpec.Ephemeral := false; VolumeSpec.Size := 1024;
     VolumeSpec.Format := FsExt4; VolumeSpec.BlockSize := 4096;
     VolumeSpec.HALevel := 0; VolumeSpec.Cos := VolumeCosNone;
     VolumeSpec.Dedupe := false; VolumeSpec.SnapshotInterval := 0;
     VolumeSpec.ConfigLabels := ∅ |}.

Definition unmountedVolume : Volume := set_AttachPath "" mountedVolume.

Definition worldUnmounted : World :=
  with_vols {[ "uuid-1" := unmountedVolume ]} world0.

End nfs.

(** * Properties *)

(** ** Go preliminaries *)

Module GoFacts.

Lemma byte_to_N_inj (x y : byte) : Byte.to_N x = Byte.to_N y -> x = y.
Proof.
  intros E. apply (f_equal Byte.of_N) in E.
  rewrite !Byte.of_to_N in E. congruence.
Qed.

(** [bytes.Compare] is zero exactly on equal slices. *)
Lemma Compare_eq_iff (a b : bytes) : bytes.Compare a b = 0 <-> a = b.
Proof.
  revert b. induction a as [|x a IH]; intros [|y b]; simpl; try easy.
  destruct (N.compare_spec (Byte.to_N x) (Byte.to_N y)) as [E|L|L].
  - apply byte_to_N_inj in E. subst y. rewrite IH.
    split; [intros ->; reflexivity | intros [= ->]; reflexivity].
  - split; [discriminate | intros [= -> _]; lia].
  - split; [discriminate | intros [= -> _]; lia].
Qed.

Lemma Compare_neq (a b : bytes) : a <> b -> (bytes.Compare a b =? 0) = false.
Proof. intros Hne. apply Z.eqb_neq. by rewrite Compare_eq_iff. Qed.

Lemma Compare_refl (a : bytes) : (bytes.Compare a a =? 0) = true.
Proof. apply Z.eqb_eq. by rewrite Compare_eq_iff. Qed.

End GoFacts.

(** ** The cluster database *)

Module ClusterDatabase.
Import cluster.

Section database.
Context `{Types} {S : Type} `{!kvdb.Kvdb S} `{!json.Codec Database}.

(** What [readDatabase] returns, by what the store answered. *)
Lemma readDatabase_absent (s : S) (err : option error) :
  kvdb.Get "cluster/database" s = (None, err) ->
  otherStoreError err = false ->
  readDatabase s = (initDatabase, None).
Proof.
  intros HGet Herr. unfold readDatabase. by rewrite HGet, Herr.
Qed.

Lemma readDatabase_marker (s : S) (kv : kvdb.KVPair) :
  kvdb.Get "cluster/database" s = (Some kv, None) ->
  kvdb.Value kv = bytes_of "{}" ->
  readDatabase s = (initDatabase, None).
Proof.
  intros HGet Hv. unfold readDatabase. rewrite HGet. cbn [otherStoreError].
  by rewrite Hv, GoFacts.Compare_refl.
Qed.

Lemma readDatabase_decodes (s : S) (kv : kvdb.KVPair) :
  kvdb.Get "cluster/database" s = (Some kv, None) ->
  kvdb.Value kv <> bytes_of "{}" ->
  readDatabase s = json.Unmarshal (kvdb.Value kv) initDatabase.
Proof.
  intros HGet Hv. unfold readDatabase. rewrite HGet. cbn [otherStoreError].
  by rewrite GoFacts.Compare_neq.
Qed.

Lemma readDatabase_store_error (s : S) (kv : option kvdb.KVPair) (e : error) :
  kvdb.Get "cluster/database" s = (kv, Some e) ->
  strings.Contains (Error e) "100: Key not found" = false ->
  readDatabase s = (initDatabase, Some e).
Proof.
  intros HGet He. unfold readDatabase. rewrite HGet. simpl. by rewrite He.
Qed.

(** C1. When the store answers the read of "cluster/database" with the
    key-not-found error, and when it answers with the two bytes "{}",
    [readDatabase] returns the record with status [StatusInit] and an empty
    node table, and no error. *)
Theorem readDatabase_uninitialized (s : S) :
  (exists e, kvdb.Get "cluster/database" s = (None, Some e) /\
             strings.Contains (Error e) "100: Key not found" = true) \/
  (exists kv, kvdb.Get "cluster/database" s = (Some kv, None) /\
              kvdb.Value kv = bytes_of "{}") ->
  readDatabase s =
    ({| Cluster := {| Status := StatusInit |}; Nodes := ∅ |}, None).
Proof.
  intros [(e & HGet & He) | (kv & HGet & Hv)].
  - apply (readDatabase_absent s (Some e) HGet). simpl. by rewrite He.
  - exact (readDatabase_marker s kv HGet Hv).
Qed.

(** C2. When the key holds bytes other than "{}" that the codec fails to
    decode into the record, [readDatabase] returns the decoding error: the
    result is never the pair of the initial record and a nil error. *)
Theorem readDatabase_corrupt (s : S) (kv : kvdb.KVPair) (db' : Database)
    (e : error) :
  kvdb.Get "cluster/database" s = (Some kv, None) ->
  kvdb.Value kv <> bytes_of "{}" ->
  json.Unmarshal (kvdb.Value kv) initDatabase = (db', Some e) ->
  readDatabase s = (db', Some e) /\ (readDatabase s).2 <> None.
Proof.
  intros HGet Hne Hdec.
  rewrite (readDatabase_decodes s kv HGet Hne), Hdec.
  by split.
Qed.

(** The store returns under a key the value last put there: the contract of
    a reliable store on which nobody else writes between the two calls. *)
Definition reads_own_write (s s' : S) : Prop :=
  forall b r, kvdb.Put "cluster/database" b 0 s = ((r, None), s') ->
    exists kv, kvdb.Get "cluster/database" s' = (Some kv, None) /\
               kvdb.Value kv = b.

(** The codec decodes what it encoded for [db], into the record
    [readDatabase] starts from. *)
Definition decodes_own_encoding (db : Database) : Prop :=
  forall b, json.Marshal db = (b, None) ->
    json.Unmarshal b initDatabase = (db, None).

(** An object without members sets no field of the target. *)
Definition empty_object_neutral : Prop :=
  json.Unmarshal (bytes_of "{}") initDatabase = (initDatabase, None).

Lemma writeDatabase_ok (db : Database) (s s' : S) :
  writeDatabase db s = (None, s') ->
  exists b r, json.Marshal db = (b, None) /\
              kvdb.Put "cluster/database" b 0 s = ((r, None), s').
Proof.
  unfold writeDatabase.
  destruct (json.Marshal db) as [b [e|]]; [discriminate|].
  destruct (kvdb.Put "cluster/database" b 0 s) as [[r err] s1] eqn:HPut.
  intros [= -> ->]. by exists b, r.
Qed.

(** C3, as the code has it.  After a [writeDatabase db] that returned no
    error, [readDatabase] returns [db] and no error, for every record [db]
    that the codec decodes back from its own encoding, on a store that
    returns what was last put under the key. *)
Theorem writeDatabase_readDatabase (db : Database) (s s' : S) :
  reads_own_write s s' ->
  decodes_own_encoding db ->
  empty_object_neutral ->
  writeDatabase db s = (None, s') ->
  readDatabase s' = (db, None).
Proof.
  intros Hstore Hcodec Hempty Hw.
  destruct (writeDatabase_ok db s s' Hw) as (b & r & Hm & Hp).
  destruct (Hstore b r Hp) as (kv & HGet & Hv).
  specialize (Hcodec b Hm).
  subst b.
  destruct (Z.eqb_spec (bytes.Compare (kvdb.Value kv) (bytes_of "{}")) 0)
    as [Hb|Hb]; rewrite GoFacts.Compare_eq_iff in Hb.
  - (* the encoding is the marker itself: [db] is then the initial record *)
    rewrite (readDatabase_marker s' kv HGet Hb).
    unfold empty_object_neutral in Hempty. congruence.
  - by rewrite (readDatabase_decodes s' kv HGet Hb).
Qed.

(** X1. [readDatabase] returns the error [e] in exactly two situations: the
    store failed with [e], an error other than key-not-found; or the store
    handed out a value other than "{}" (with no error, or with the
    key-not-found error) and decoding it failed with [e]. *)
Theorem readDatabase_error_iff (s : S) (e : error) :
  (readDatabase s).2 = Some e <->
  (exists kv, kvdb.Get "cluster/database" s = (kv, Some e) /\
              strings.Contains (Error e) "100: Key not found" = false) \/
  (exists kv err, kvdb.Get "cluster/database" s = (Some kv, err) /\
                  otherStoreError err = false /\
                  kvdb.Value kv <> bytes_of "{}" /\
                  (json.Unmarshal (kvdb.Value kv) initDatabase).2 = Some e).
Proof.
  unfold readDatabase.
  destruct (kvdb.Get "cluster/database" s) as [kv err].
  destruct (otherStoreError err) eqn:Hother.
  - (* the store failed *)
    destruct err as [e'|]; [|discriminate]. simpl in Hother.
    apply negb_true_iff in Hother. simpl. split.
    + intros [= ->]. left. by exists kv.
    + intros [(kv' & [= _ ->] & _) | (kv' & err' & [= _ <-] & Hno & _)];
        [done|].
      simpl in Hno. rewrite Hother in Hno. discriminate.
  - destruct kv as [kv|].
    + destruct (Z.eqb_spec (bytes.Compare (kvdb.Value kv) (bytes_of "{}")) 0)
        as [Hm|Hm]; rewrite GoFacts.Compare_eq_iff in Hm; simpl.
      * split; [discriminate|].
        intros [(kv' & [= _ ->] & Hc) | (kv' & err' & [= <- _] & _ & Hne & _)];
          [|done].
        simpl in Hother. rewrite Hc in Hother. discriminate.
      * split.
        -- intros Hd. right. by exists kv, err.
        -- intros [(kv' & [= _ ->] & Hc) | (kv' & err' & [= <- _] & _ & _ & Hd)];
             [|done].
           simpl in Hother. rewrite Hc in Hother. discriminate.
    + simpl. split; [discriminate|].
      intros [(kv' & [= _ ->] & Hc) | (kv' & err' & [= ] & _)].
      simpl in Hother. rewrite Hc in Hother. discriminate.
Qed.

(** X2. When encoding the record fails, [writeDatabase] returns the
    encoding error without calling the store: what [readDatabase] returns
    afterwards is what it returned before. *)
Theorem writeDatabase_encoding_failure (db : Database) (s : S) (b : bytes)
    (e : error) :
  json.Marshal db = (b, Some e) ->
  writeDatabase db s = (Some e, s) /\
  readDatabase (writeDatabase db s).2 = readDatabase s.
Proof.
  intros Hm. unfold writeDatabase. by rewrite Hm.
Qed.

End database.

(** The in-memory store returns what was put, whatever the key. *)
Lemma MemKV_reads_own_write (s s' : gmap string bytes) :
  reads_own_write s s'.
Proof.
  intros b r [= _ <-].
  exists {| kvdb.Key := "cluster/database"; kvdb.Value := b |}.
  split; [|reflexivity].
  unfold kvdb.Get; simpl. unfold kvdb.mem_Get.
  by rewrite lookup_insert_eq.
Qed.

Lemma readDatabase_uninitialized_witness :
  readDatabase emptyStore = (initDatabase, None) /\
  readDatabase (storeHolding "{}") = (initDatabase, None).
Proof.
  split; apply readDatabase_uninitialized.
  - left. eexists. split; reflexivity.
  - right. eexists. split; reflexivity.
Defined.

Lemma readDatabase_corrupt_witness :
  readDatabase (storeHolding "{garbage") =
    (initDatabase, Some (errorString "invalid character in JSON input")) /\
  (readDatabase (storeHolding "{garbage")).2 <> None.
Proof.
  eapply readDatabase_corrupt.
  - reflexivity.
  - simpl. discriminate.
  - reflexivity.
Defined.

Lemma writeDatabase_readDatabase_witness :
  writeDatabase demoDatabase emptyStore =
    (None, (writeDatabase demoDatabase emptyStore).2) /\
  readDatabase (writeDatabase demoDatabase emptyStore).2 = (demoDatabase, None).
Proof.
  split; [reflexivity|].
  apply (writeDatabase_readDatabase demoDatabase emptyStore).
  - apply MemKV_reads_own_write.
  - intros b Hb. vm_compute in Hb. injection Hb as <-. vm_compute. reflexivity.
  - reflexivity.
  - reflexivity.
Defined.

(** A record for which the round trip fails.  Its node id is not UTF-8;
    the encoding carries the replacement character in its place, so the
    write succeeds and the read returns, with no error, another record. *)
Lemma writeDatabase_readDatabase_invalid_utf8 :
  (writeDatabase invalidUtf8Database emptyStore).1 = None /\
  reads_own_write emptyStore (writeDatabase invalidUtf8Database emptyStore).2 /\
  readDatabase (writeDatabase invalidUtf8Database emptyStore).2 =
    (replacedDatabase, None) /\
  readDatabase (writeDatabase invalidUtf8Database emptyStore).2 <>
    (invalidUtf8Database, None).
Proof.
  split; [reflexivity|]. split; [apply MemKV_reads_own_write|].
  assert (readDatabase (writeDatabase invalidUtf8Database emptyStore).2 =
            (replacedDatabase, None)) as Hread by (vm_compute; reflexivity).
  split; [exact Hread|].
  rewrite Hread. intros Heq.
  apply (f_equal (fun out : DemoDatabase * option error =>
                    (Nodes out.1 : gmap string string) !! replacement))
    in Heq.
  vm_compute in Heq. discriminate.
Qed.

Lemma writeDatabase_encoding_failure_witness :
  writeDatabase unencodableDatabase (storeHolding "{}") =
    (Some (errorString "json: unsupported value"), storeHolding "{}") /\
  readDatabase (writeDatabase unencodableDatabase (storeHolding "{}")).2 =
    readDatabase (storeHolding "{}").
Proof.
  apply (writeDatabase_encoding_failure unencodableDatabase
           (storeHolding "{}") []).
  reflexivity.
Defined.

End ClusterDatabase.

(** ** The driver registry *)

Module DriverRegistry.
Import volume.

Section registry.
Context {W D : Type} `{!VolumeDriver W D}.

Implicit Types (r : Registry W D) (w : W) (name : string)
  (params : DriverParams) (f g : InitFunc W D).

(** [Shutdown] leaves the registry as it is, however it ends. *)
Lemma Shutdown_registry order r w : (state_of (Shutdown order r w)).1 = r.
Proof.
  unfold Shutdown. by destruct (shutdownLoop (order (instances r)) w).
Qed.

Lemma Get_live name r v :
  instances r !! name = Some v -> Get name r = (v, None).
Proof. intros Hi. unfold Get. by rewrite Hi. Qed.

Lemma Get_not_live name r :
  instances r !! name = None -> Get name r = (nil, Some ErrDriverNotFound).
Proof. intros Hi. unfold Get. by rewrite Hi. Qed.

Lemma New_live name params r w :
  is_Some (instances r !! name) ->
  New name params r w = ((nil, Some ErrExist), (r, w)).
Proof. intros [v Hi]. unfold New. by rewrite Hi. Qed.

Lemma New_unregistered name params r w :
  instances r !! name = None -> drivers r !! name = None ->
  New name params r w = ((nil, Some ErrNotSupported), (r, w)).
Proof. intros Hi Hd. unfold New. by rewrite Hi, Hd. Qed.

Lemma New_init_ok name params r w f v w' :
  instances r !! name = None -> drivers r !! name = Some f ->
  f params w = ((v, None), w') ->
  New name params r w =
    ((v, None),
     ({| instances := <[name := v]> (instances r); drivers := drivers r |},
      w')).
Proof. intros Hi Hd Hf. unfold New. by rewrite Hi, Hd, Hf. Qed.

Lemma New_init_fails name params r w f v e w' :
  instances r !! name = None -> drivers r !! name = Some f ->
  f params w = ((v, Some e), w') ->
  New name params r w = ((nil, Some e), (r, w')).
Proof. intros Hi Hd Hf. unfold New. by rewrite Hi, Hd, Hf. Qed.

Lemma Register_taken name g r :
  is_Some (drivers r !! name) -> Register name g r = (Some ErrExist, r).
Proof. intros [f Hd]. unfold Register. by rewrite Hd. Qed.

Lemma Register_ok_inv name f r r1 :
  Register name f r = (None, r1) ->
  drivers r !! name = None /\
  r1 = {| instances := instances r;
          drivers := <[name := f]> (drivers r) |}.
Proof.
  unfold Register. destruct (drivers r !! name); [discriminate|].
  by intros [= <-].
Qed.

(** No call removes or replaces a registered initializer. *)
Lemma New_drivers name params r w :
  drivers (New name params r w).2.1 = drivers r.
Proof.
  unfold New. destruct (instances r !! name); [done|].
  destruct (drivers r !! name) as [f|]; [|done].
  by destruct (f params w) as [[v [e|]] w'].
Qed.

Lemma Register_keeps name' g name f r :
  drivers r !! name = Some f ->
  drivers (Register name' g r).2 !! name = Some f.
Proof.
  intros Hd. unfold Register.
  destruct (drivers r !! name') eqn:Hd'; [done|]. simpl.
  rewrite lookup_insert_ne; [done|congruence].
Qed.

Lemma exec_keeps order name f (st : Registry W D * W) (c : call) :
  drivers st.1 !! name = Some f ->
  drivers (exec order st c).1 !! name = Some f.
Proof.
  intros Hd. destruct c as [name' g|name' params|name'|]; simpl; try done.
  - by apply Register_keeps.
  - by rewrite New_drivers.
  - by rewrite Shutdown_registry.
Qed.

Lemma run_keeps order name f (cs : list call) (st : Registry W D * W) :
  drivers st.1 !! name = Some f ->
  drivers (run order cs st).1 !! name = Some f.
Proof.
  unfold run. revert st.
  induction cs as [|c cs IH]; intros st Hd; [done|].
  simpl. apply IH. by apply exec_keeps.
Qed.

(** C4. [New] fails with [ErrExist] when the name has a live instance;
    otherwise with [ErrNotSupported] when no initializer is registered for
    it; otherwise, when the initializer returns no error, the instance is
    stored and [Get] on the new registry returns it with no error.  [Get] on
    a name without live instance fails with [ErrDriverNotFound]. *)
Theorem New_then_Get name params r w :
  (is_Some (instances r !! name) ->
   New name params r w = ((nil, Some ErrExist), (r, w))) /\
  (instances r !! name = None -> drivers r !! name = None ->
   New name params r w = ((nil, Some ErrNotSupported), (r, w))) /\
  (forall f v w',
     instances r !! name = None -> drivers r !! name = Some f ->
     f params w = ((v, None), w') ->
     exists r', New name params r w = ((v, None), (r', w')) /\
                instances r' = <[name := v]> (instances r) /\
                drivers r' = drivers r /\
                Get name r' = (v, None)) /\
  (forall name', instances r !! name' = None ->
                 Get name' r = (nil, Some ErrDriverNotFound)).
Proof.
  split; [apply New_live|].
  split; [apply New_unregistered|].
  split; [|intros name'; apply Get_not_live].
  intros f v w' Hi Hd Hf. eexists. split; [|split; [|split]].
  - by apply (New_init_ok name params r w f v w').
  - done.
  - done.
  - apply Get_live. simpl. apply lookup_insert_eq.
Qed.

(** C5. Once [Register name f] has succeeded, whatever calls of the package
    follow, [Register name g] fails with [ErrExist] and returns the registry
    as it found it, in which [f] is still the initializer of [name]. *)
Theorem Register_twice order name f g r r1 w (cs : list call) :
  Register name f r = (None, r1) ->
  let r2 := (run order cs (r1, w)).1 in
  Register name g r2 = (Some ErrExist, r2) /\ drivers r2 !! name = Some f.
Proof.
  intros HR r2.
  destruct (Register_ok_inv name f r r1 HR) as [_ ->].
  assert (drivers r2 !! name = Some f) as Hd.
  { apply run_keeps. simpl. apply lookup_insert_eq. }
  split; [|done]. apply Register_taken. by rewrite Hd.
Qed.

(** C6. When the initializer registered for a name without live instance
    returns an error, [New] returns that error and the nil instance and
    leaves the registry as it was: [Get] on the name still fails, and a later
    [New] whose initializer call succeeds stores its instance. *)
Theorem New_failed_init name params r w f v e w' :
  instances r !! name = None -> drivers r !! name = Some f ->
  f params w = ((v, Some e), w') ->
  New name params r w = ((nil, Some e), (r, w')) /\
  Get name r = (nil, Some ErrDriverNotFound) /\
  (forall params' v' w'',
     f params' w' = ((v', None), w'') ->
     exists r', New name params' r w' = ((v', None), (r', w'')) /\
                Get name r' = (v', None)).
Proof.
  intros Hi Hd Hf.
  split; [by apply (New_init_fails name params r w f v e w')|].
  split; [by apply Get_not_live|].
  intros params' v' w'' Hf'. eexists. split.
  - by apply (New_init_ok name params' r w' f v' w'').
  - apply Get_live. simpl. apply lookup_insert_eq.
Qed.



Lemma shutdownLoop_panics (entries : list (string * D)) w :
  Exists (fun kv : string * D => kv.2 = nil) entries ->
  exists w', shutdownLoop entries w = Panicked w'.
Proof.
  intros Hex. revert w.
  induction Hex as [kv entries Hkv|kv entries _ IH]; intros w; simpl.
  - exists w. by rewrite (proj2 (drv_Shutdown_nil kv.2 w) Hkv).
  - destruct (drv_Shutdown kv.2 w) as [w1|]; [apply IH|by exists w].
Qed.

(** With the nil interface value among the live instances, [Shutdown]
    panics, wherever the loop meets it. *)
Lemma Shutdown_nil_panics order r w name :
  (forall m : gmap string D, order m ≡ₚ map_to_list m) ->
  instances r !! name = Some nil ->
  exists w', Shutdown order r w = Panicked (r, w').
Proof.
  intros Horder Hi.
  destruct (shutdownLoop_panics (order (instances r)) w) as [w' Hloop].
  { apply Exists_exists. exists (name, nil). split; [|done].
    rewrite Horder. by apply elem_of_map_to_list. }
  exists w'. unfold Shutdown. by rewrite Hloop.
Qed.


(** *** Runs of calls *)

Lemma New_instances_other name name' params r w :
  name' <> name ->
  instances (New name' params r w).2.1 !! name = instances r !! name.
Proof.
  intros Hne. unfold New. destruct (instances r !! name'); [done|].
  destruct (drivers r !! name') as [f|]; [|done].
  destruct (f params w) as [[v [e|]] w']; [done|]. simpl.
  by rewrite lookup_insert_ne.
Qed.

Lemma New_keeps_instance name name' params r w v :
  instances r !! name = Some v ->
  instances (New name' params r w).2.1 !! name = Some v.
Proof.
  intros Hi. destruct (decide (name' = name)) as [->|Hne].
  - rewrite New_live; [done|]. by rewrite Hi.
  - by rewrite New_instances_other.
Qed.

Lemma exec_keeps_instance order name v (st : Registry W D * W) (c : call) :
  instances st.1 !! name = Some v ->
  instances (exec order st c).1 !! name = Some v.
Proof.
  intros Hi. destruct c as [name' g|name' params|name'|]; simpl; try done.
  - unfold Register. by destruct (drivers st.1 !! name').
  - by apply New_keeps_instance.
  - by rewrite Shutdown_registry.
Qed.

Lemma run_keeps_instance order name v (cs : list call)
    (st : Registry W D * W) :
  instances st.1 !! name = Some v ->
  instances (run order cs st).1 !! name = Some v.
Proof.
  unfold run. revert st.
  induction cs as [|c cs IH]; intros st Hi; [done|].
  simpl. apply IH. by apply exec_keeps_instance.
Qed.

(** Every name with a live instance has a registered initializer. *)
Definition live_registered (r : Registry W D) : Prop :=
  dom (instances r) ⊆ dom (drivers r).

Lemma exec_live_registered order (st : Registry W D * W) (c : call) :
  live_registered st.1 -> live_registered (exec order st c).1.
Proof.
  unfold live_registered. intros Hinv.
  destruct c as [name g|name params|name|]; simpl; try done.
  - unfold Register. destruct (drivers st.1 !! name); [done|]. simpl.
    rewrite dom_insert_L. by apply union_subseteq_r'.
  - unfold New. destruct (instances st.1 !! name); [done|].
    destruct (drivers st.1 !! name) as [f|] eqn:Hd; [|done].
    destruct (f params st.2) as [[v [e|]] w']; [done|]. simpl.
    rewrite dom_insert_L.
    apply union_subseteq. split; [|done].
    apply singleton_subseteq_l, elem_of_dom. eauto.
  - by rewrite Shutdown_registry.
Qed.

(** The call registers an initializer under [name]. *)
Definition registers (name : string) (c : @call W D) : Prop :=
  match c with
  | CallRegister name' _ => name' = name
  | _ => False
  end.

(** The name a call is about; [Shutdown] is about none. *)
Definition subject (c : @call W D) : option string :=
  match c with
  | CallRegister name _ | CallNew name _ | CallGet name => Some name
  | CallShutdown => None
  end.

Lemma exec_unregistered order name (st : Registry W D * W) (c : call) :
  ~ registers name c ->
  drivers st.1 !! name = None -> instances st.1 !! name = None ->
  drivers (exec order st c).1 !! name = None /\
  instances (exec order st c).1 !! name = None.
Proof.
  intros Hc Hd Hi.
  destruct c as [name' g|name' params|name'|]; simpl in *; try done.
  - unfold Register. destruct (drivers st.1 !! name'); [done|]. simpl.
    by rewrite lookup_insert_ne.
  - rewrite New_drivers. split; [done|].
    destruct (decide (name' = name)) as [->|Hne].
    + by rewrite New_unregistered.
    + by rewrite New_instances_other.
  - by rewrite Shutdown_registry.
Qed.

Lemma exec_other_subject order name (st : Registry W D * W) (c : call) :
  subject c <> Some name ->
  instances (exec order st c).1 !! name = instances st.1 !! name /\
  drivers (exec order st c).1 !! name = drivers st.1 !! name.
Proof.
  intros Hc.
  destruct c as [name' g|name' params|name'|]; simpl in *; try done.
  - unfold Register. destruct (drivers st.1 !! name'); [done|]. simpl.
    rewrite lookup_insert_ne; [done|congruence].
  - rewrite New_drivers, New_instances_other; [done|congruence].
  - by rewrite Shutdown_registry.
Qed.

(** X3. Whatever calls are made from the registry [init()] sets up, every
    name with a live instance has a registered initializer. *)
Theorem live_instances_are_registered order (cs : list call) w :
  dom (instances (run order cs (init, w)).1)
  ⊆ dom (drivers (run order cs (init, w)).1).
Proof.
  assert (forall st : Registry W D * W,
            live_registered st.1 -> live_registered (run order cs st).1) as H.
  { unfold run. induction cs as [|c cs IH]; intros st Hinv; [done|].
    simpl. apply IH. by apply exec_live_registered. }
  apply (H (init, w)). unfold live_registered. simpl. by rewrite !dom_empty_L.
Qed.

(** X4. A live instance is never removed nor replaced by a call of the
    package: after any run the name is still bound to it, [Get] returns it
    and [New] on the name fails with [ErrExist] without changing anything. *)
Theorem live_instance_persists order name v r w (cs : list call) :
  instances r !! name = Some v ->
  let st := run order cs (r, w) in
  instances st.1 !! name = Some v /\
  Get name st.1 = (v, None) /\
  (forall params w',
     New name params st.1 w' = ((nil, Some ErrExist), (st.1, w'))).
Proof.
  intros Hi st.
  assert (instances st.1 !! name = Some v) as Hi'
    by (by apply run_keeps_instance).
  split; [done|]. split; [by apply Get_live|].
  intros params w'. apply New_live. by rewrite Hi'.
Qed.

(** X5. As long as no call registers an initializer under a name that has
    none, [New] on that name fails with [ErrNotSupported], changing nothing,
    and [Get] on it fails with [ErrDriverNotFound]. *)
Theorem unregistered_name_unsupported order name r w (cs : list call) :
  drivers r !! name = None -> instances r !! name = None ->
  Forall (fun c => ~ registers name c) cs ->
  let st := run order cs (r, w) in
  (forall params w',
     New name params st.1 w' = ((nil, Some ErrNotSupported), (st.1, w'))) /\
  Get name st.1 = (nil, Some ErrDriverNotFound).
Proof.
  intros Hd Hi Hcs st.
  assert (drivers st.1 !! name = None /\ instances st.1 !! name = None)
    as [Hd' Hi'].
  { subst st. unfold run.
    change r with (r, w).1 in Hd, Hi. revert Hd Hi. generalize (r, w).
    induction Hcs as [|c cs Hc _ IH]; intros st Hd Hi; [done|].
    simpl. destruct (exec_unregistered order name st c Hc Hd Hi).
    by apply IH. }
  split; [|by apply Get_not_live].
  intros params w'. by apply New_unregistered.
Qed.

(** X6. Calls about other names, and [Shutdown], leave the instance and the
    initializer of a name as they are. *)
Theorem other_names_untouched order name r w (cs : list call) :
  Forall (fun c => subject c <> Some name) cs ->
  let st := run order cs (r, w) in
  instances st.1 !! name = instances r !! name /\
  drivers st.1 !! name = drivers r !! name.
Proof.
  intros Hcs st. subst st. unfold run.
  change (instances r) with (instances (r, w).1).
  change (drivers r) with (drivers (r, w).1).
  generalize (r, w).
  induction Hcs as [|c cs Hc _ IH]; intros st; [done|].
  simpl. destruct (exec_other_subject order name st c Hc) as [<- <-].
  apply IH.
Qed.

(** X7. After [Register name f] succeeded on a registry without live
    instance for the name, [New name params] calls [f] on [params]: it
    returns [f]'s error with the nil instance, or stores and returns [f]'s
    instance. *)
Theorem Register_then_New name f r r1 params w :
  Register name f r = (None, r1) ->
  instances r !! name = None ->
  New name params r1 w =
    match f params w with
    | ((_, Some e), w') => ((nil, Some e), (r1, w'))
    | ((v, None), w') =>
        ((v, None),
         ({| instances := <[name := v]> (instances r1);
             drivers := drivers r1 |}, w'))
    end.
Proof.
  intros HR Hi. destruct (Register_ok_inv name f r r1 HR) as [_ ->].
  unfold New. simpl. rewrite Hi, lookup_insert_eq.
  by destruct (f params w) as [[v [e|]] w'].
Qed.

End registry.

(** The registry with the NFS driver, on the recording world. *)

Lemma New_then_Get_witness :
  exists r',
    New nfs.Name nfs.bindParams nfs.nfsRegistry nfs.world0 =
      ((Some nfs.bindDriver, None),
       (r', (nfs.Init nfs.bindParams nfs.world0).2)) /\
    instances r' = <[nfs.Name := Some nfs.bindDriver]>
                     (instances nfs.nfsRegistry) /\
    drivers r' = drivers nfs.nfsRegistry /\
    Get nfs.Name r' = (Some nfs.bindDriver, None).
Proof.
  apply (proj1 (proj2 (proj2
           (New_then_Get nfs.Name nfs.bindParams nfs.nfsRegistry nfs.world0)))
         nfs.InitFunc_Init);
    reflexivity.
Defined.

Lemma Register_twice_witness :
  Register nfs.Name nfs.InitFunc_Init init = (None, nfs.nfsRegistry) /\
  let r2 :=
    (run map_to_list
       [CallNew nfs.Name nfs.bindParams; CallShutdown;
        CallRegister "other" nfs.InitFunc_Init; CallGet nfs.Name]
       (nfs.nfsRegistry, nfs.world0)).1 in
  Register nfs.Name nfs.InitFunc_Init r2 = (Some ErrExist, r2) /\
  drivers r2 !! nfs.Name = Some nfs.InitFunc_Init.
Proof.
  split; [reflexivity|].
  apply (Register_twice map_to_list nfs.Name nfs.InitFunc_Init
           nfs.InitFunc_Init init).
  reflexivity.
Defined.

Lemma New_failed_init_witness :
  New nfs.Name ∅ nfs.nfsRegistry nfs.world0 =
    ((None, Some (errorString "No NFS path provided")),
     (nfs.nfsRegistry, nfs.world0)) /\
  Get nfs.Name nfs.nfsRegistry = (None, Some ErrDriverNotFound) /\
  (forall params' v' w'',
     nfs.InitFunc_Init params' nfs.world0 = ((v', None), w'') ->
     exists r', New nfs.Name params' nfs.nfsRegistry nfs.world0 =
                  ((v', None), (r', w'')) /\
                Get nfs.Name r' = (v', None)).
Proof.
  exact (New_failed_init nfs.Name ∅ nfs.nfsRegistry nfs.world0
           nfs.InitFunc_Init None (errorString "No NFS path provided")
           nfs.world0 eq_refl eq_refl eq_refl).
Defined.


(** On that registry the one live instance is shut down by one unmount of
    the driver's mount point. *)
Example Shutdown_nfs_trace :
  let r := (New nfs.Name nfs.bindParams nfs.nfsRegistry nfs.world0).2.1 in
  nfs.trace (state_of (Shutdown map_to_list r nfs.world0)).2 =
    [nfs.SysUnmount nfs.nfsMountPath 0].
Proof. reflexivity. Qed.



(** A run that instantiates the NFS driver and goes on. *)

Lemma live_instance_persists_witness :
  let r := (New nfs.Name nfs.bindParams nfs.nfsRegistry nfs.world0).2.1 in
  let st :=
    run map_to_list
      [CallShutdown; CallNew nfs.Name nfs.serverParams;
       CallRegister "other" nfs.InitFunc_Init; CallNew "other" nfs.bindParams]
      (r, nfs.world0) in
  instances st.1 !! nfs.Name = Some (Some nfs.bindDriver) /\
  Get nfs.Name st.1 = (Some nfs.bindDriver, None) /\
  (forall params w',
     New nfs.Name params st.1 w' = ((None, Some ErrExist), (st.1, w'))).
Proof.
  intros r.
  exact (live_instance_persists map_to_list nfs.Name (Some nfs.bindDriver)
           r nfs.world0 _ eq_refl).
Defined.

Lemma unregistered_name_unsupported_witness :
  let st :=
    run map_to_list
      [CallNew nfs.Name nfs.bindParams; CallRegister "other" nfs.InitFunc_Init;
       CallShutdown; CallGet nfs.Name]
      (init, nfs.world0) in
  (forall params w',
     New nfs.Name params st.1 w' =
       ((None, Some ErrNotSupported), (st.1, w'))) /\
  Get nfs.Name st.1 = (None, Some ErrDriverNotFound).
Proof.
  refine (unregistered_name_unsupported map_to_list nfs.Name init nfs.world0
            _ eq_refl eq_refl _).
  repeat constructor; simpl; try tauto; discriminate.
Defined.

Lemma other_names_untouched_witness :
  let st :=
    run map_to_list
      [CallRegister "other" nfs.InitFunc_Init; CallNew "other" nfs.bindParams;
       CallShutdown; CallGet "other"]
      (nfs.nfsRegistry, nfs.world0) in
  instances st.1 !! nfs.Name = instances nfs.nfsRegistry !! nfs.Name /\
  drivers st.1 !! nfs.Name = drivers nfs.nfsRegistry !! nfs.Name.
Proof.
  refine (other_names_untouched map_to_list nfs.Name nfs.nfsRegistry
            nfs.world0 _ _).
  repeat constructor; simpl; discriminate.
Defined.

Lemma Register_then_New_witness :
  New nfs.Name nfs.bindParams nfs.nfsRegistry nfs.world0 =
    match nfs.InitFunc_Init nfs.bindParams nfs.world0 with
    | ((_, Some e), w') => ((None, Some e), (nfs.nfsRegistry, w'))
    | ((v, None), w') =>
        ((v, None),
         ({| instances := <[nfs.Name := v]> (instances nfs.nfsRegistry);
             drivers := drivers nfs.nfsRegistry |}, w'))
    end.
Proof.
  exact (Register_then_New nfs.Name nfs.InitFunc_Init init nfs.nfsRegistry
           nfs.bindParams nfs.world0 eq_refl eq_refl).
Defined.

End DriverRegistry.

(** ** The NFS driver *)

Module NfsDriver.
Import api nfs.

Section driver.
Context {W : Type} `{!Sys W} `{!Enumerator W}.

Implicit Types (d : driver) (w : W) (v : Volume).

(** [Create] never reads its options. *)
Lemma Create_ignores_options d locator (opt opt' : CreateOptions) spec w :
  Create d locator opt spec w = Create d locator opt' spec w.
Proof. reflexivity. Qed.

(** C8. [Unmount] of a volume whose record has an empty [AttachPath]
    returns an error and leaves the world, and with it every persisted
    volume record, as it was. *)
Theorem Unmount_not_mounted d (volumeID : VolumeID) (mountpath : string) w v :
  GetVol volumeID w = (v, None) ->
  AttachPath v = "" ->
  Unmount d volumeID mountpath w =
    (Some (errorString ("Device " ++ volumeID ++ " not mounted")), w).
Proof.
  intros HGet Hpath. unfold Unmount. by rewrite HGet, Hpath.
Qed.


End driver.

(** C7. In a world that holds a volume with locator [locatorVol1], [Create]
    with [FailIfExists] set and that same locator returns a fresh id and no
    error, and the world then holds two volumes with that locator. *)
Theorem Create_FailIfExists_duplicates :
  Locator <$> vols world1 !! "uuid-1" = Some locatorVol1 /\
  (Create bindDriver locatorVol1 failIfExists specNfs world1).1 =
    ("uuid-2", None) /\
  let w2 := (Create bindDriver locatorVol1 failIfExists specNfs world1).2 in
  Locator <$> vols w2 !! "uuid-1" = Some locatorVol1 /\
  Locator <$> vols w2 !! "uuid-2" = Some locatorVol1.
Proof. vm_compute. repeat split. Qed.

Lemma Unmount_not_mounted_witness :
  Unmount bindDriver "uuid-1" "/mnt/vol1" world1 =
    (Some (errorString "Device uuid-1 not mounted"), world1).
Proof.
  eapply (Unmount_not_mounted bindDriver "uuid-1" "/mnt/vol1" world1);
    reflexivity.
Defined.


(** On the recording world: the path unmounted is the recorded
    "/mnt/vol1", not the argument, and the record ends with an empty
    [AttachPath]. *)
Example Unmount_elsewhere_trace :
  let out := Unmount bindDriver "uuid-1" "/elsewhere" worldMounted in
  out.1 = None /\
  trace out.2 = [SysUnmount "/mnt/vol1" 0] /\
  AttachPath <$> vols out.2 !! "uuid-1" = Some "".
Proof. vm_compute. repeat split. Qed.

(** *** Initialization, creation and the mount cycle *)

Section lifecycle.
Context {W : Type} `{!Sys W} `{!Enumerator W} `{!Remover W}
  `{!VolumeDeleter W}.

Implicit Types (d : driver) (w : W) (v : Volume) (id : VolumeID).

(** The enumerator returns under an id the record last written for it. *)
Definition returns_updates : Prop :=
  forall v w w', UpdateVol v w = (None, w') -> GetVol (ID v) w' = (v, None).

Lemma set_AttachPath_undo v (path : string) :
  AttachPath v = "" -> set_AttachPath "" (set_AttachPath path v) = v.
Proof. destruct v. simpl. by intros ->. Qed.

Lemma Unmount_unmounted d id (mountpath : string) w v :
  GetVol id w = (v, None) -> AttachPath v = "" ->
  Unmount d id mountpath w =
    (Some (errorString ("Device " ++ id ++ " not mounted")), w).
Proof. intros HGet Hp. unfold Unmount. by rewrite HGet, Hp. Qed.

Lemma Unmount_ok_inv d id (mountpath : string) w w' v :
  GetVol id w = (v, None) ->
  Unmount d id mountpath w = (None, w') ->
  exists w1, syscall_Unmount (AttachPath v) 0 w = (None, w1) /\
             UpdateVol (set_AttachPath "" v) w1 = (None, w').
Proof.
  intros HGet. unfold Unmount. rewrite HGet.
  destruct (String.eqb (AttachPath v) ""); [discriminate|].
  destruct (syscall_Unmount (AttachPath v) 0 w) as [[e|] w1];
    [discriminate|].
  intros HU. by exists w1.
Qed.

Lemma Mount_ok_inv d id (mountpath : string) w w' v :
  GetVol id w = (v, None) ->
  Mount d id mountpath w = Some (None, w') ->
  exists spec w1, Spec v = Some spec /\
                  UpdateVol (set_AttachPath mountpath v) w1 = (None, w').
Proof.
  intros HGet. unfold Mount. rewrite HGet.
  destruct (syscall_Unmount mountpath 0 w) as [r0 w0].
  destruct (Spec v) as [spec|]; [|discriminate].
  destruct (syscall_Mount _ _ _ _ _ w0) as [[e|] w1]; [discriminate|].
  intros [= HU]. by exists spec, w1.
Qed.

Lemma Create_stored_record d locator opt spec w id w' :
  returns_updates ->
  Create d locator opt spec w = ((id, None), w') ->
  exists v, GetVol id w' = (v, None) /\
            ID v = id /\ Locator v = locator /\ Spec v = Some spec /\
            Format v = "nfs" /\ State v = VolumeAvailable /\
            DevicePath v = nfsMountPath ++ id /\ AttachPath v = "".
Proof.
  intros Hlaw. unfold Create.
  destruct (negb _ && negb _); [discriminate|].
  destruct (uuid_New w) as [uuid w1].
  destruct (os_MkdirAll _ _ w1) as [[e|] w2]; [discriminate|].
  destruct (time_Now w2) as [ctime w3].
  destruct (time_Now w3) as [lastScan w4].
  destruct (CreateVol _ w4) as [[e|] w5]; [discriminate|].
  destruct (UpdateVol _ w5) as [err w6] eqn:HU.
  simpl. intros [= <- -> ->].
  eexists. split; [exact (Hlaw _ _ _ HU)|]. by repeat split.
Qed.

(** X8. [Init] returns either a driver and no error, or no driver and an
    error; the driver carries the "path" parameter and the "server"
    parameter, the empty string standing for a missing server. *)
Theorem Init_driver_or_error (params : volume.DriverParams) w :
  match (Init params w).1 with
  | (Some d, None) =>
      params !! "path" = Some (nfsPath d) /\
      nfsServer d = default "" (params !! "server")
  | (None, Some _) => True
  | _ => False
  end.
Proof.
  unfold Init. destruct (params !! "path") as [path|]; [|done].
  destruct (os_MkdirAll _ _ w) as [[e|] w1]; [done|].
  destruct (syscall_Unmount _ _ w1) as [r w2].
  destruct (negb _).
  - by destruct (syscall_Mount _ _ _ _ _ w2) as [[e|] w3].
  - by destruct (syscall_Mount _ _ _ _ _ w2) as [[e|] w3].
Qed.

(** X9. With [Init] registered under the driver's name and no live
    instance, [New] with parameters that lack "path" fails with "No NFS path
    provided"; the registry is unchanged and no system call was made. *)
Theorem New_nfs_without_path (r : volume.Registry W (option driver))
    (params : volume.DriverParams) w :
  volume.instances r !! Name = None ->
  volume.drivers r !! Name = Some InitFunc_Init ->
  params !! "path" = None ->
  volume.New Name params r w =
    ((None, Some (errorString "No NFS path provided")), (r, w)).
Proof.
  intros Hi Hd Hp. unfold volume.New. rewrite Hi, Hd.
  unfold InitFunc_Init, Init. by rewrite Hp.
Qed.

(** X10. An empty "server" parameter and a missing one are the same to
    [Init]: both lead to the bind mount of the path. *)
Theorem Init_empty_server (params : volume.DriverParams) w :
  params !! "server" = None ->
  Init (<["server" := ""]> params) w = Init params w /\
  forall path w1 r w2,
    params !! "path" = Some path ->
    os_MkdirAll nfsMountPath perm0744 w = (None, w1) ->
    syscall_Unmount nfsMountPath 0 w1 = (r, w2) ->
    Init params w =
      match syscall_Mount path nfsMountPath "" MS_BIND "" w2 with
      | (Some e, w3) => ((None, Some e), w3)
      | (None, w3) =>
          ((Some {| nfsServer := ""; nfsPath := path |}, None), w3)
      end.
Proof.
  intros Hs. split.
  - unfold Init. rewrite lookup_insert_ne by done.
    by rewrite lookup_insert_eq, Hs.
  - intros path w1 r w2 Hp Hmk Hum. unfold Init.
    rewrite Hp, Hs, Hmk, Hum. simpl.
    by destruct (syscall_Mount path nfsMountPath "" MS_BIND "" w2)
      as [[e|] w3].
Qed.

(** X11. [Create] with a spec whose format is neither "nfs" nor empty fails
    before anything is done: no uuid is drawn, no directory made, no record
    written. *)
Theorem Create_unsupported_format d locator opt spec w :
  VolumeSpec.Format spec <> "nfs" -> VolumeSpec.Format spec <> "" ->
  Create d locator opt spec w =
    ((BadVolumeID,
      Some (errorString ("Unsupported filesystem format: "
                         ++ VolumeSpec.Format spec))), w).
Proof.
  intros Hn He. unfold Create.
  apply String.eqb_neq in Hn, He. by rewrite Hn, He.
Qed.

(** X12. Every result of [Create] comes from one of its return
    statements.  Either it is [BadVolumeID] with an error: the format is
    unsupported and nothing was done, or making the directory failed with
    that error, or [CreateVol] failed with it.  Or it is the uuid drawn, less
    one trailing newline, with whatever the closing [UpdateVol] returned,
    after [CreateVol] succeeded for a record with that id.  So a nil error
    comes with the id, and an error with [BadVolumeID] unless only the
    closing [UpdateVol] failed. *)
Theorem Create_id_or_BadVolumeID d locator opt spec w id (err : option error)
    w' :
  Create d locator opt spec w = ((id, err), w') ->
  let uuid := strings.TrimSuffix (uuid_New w).1 newline in
  (id = BadVolumeID /\
   exists e, err = Some e /\
     ((VolumeSpec.Format spec <> "nfs" /\ VolumeSpec.Format spec <> "" /\
       w' = w) \/
      os_MkdirAll (nfsMountPath ++ uuid) perm0744 (uuid_New w).2
        = (Some e, w') \/
      (exists v w4, ID v = uuid /\ CreateVol v w4 = (Some e, w')))) \/
  (id = uuid /\
   exists v w4 w5, ID v = uuid /\ CreateVol v w4 = (None, w5) /\
                   UpdateVol v w5 = (err, w')).
Proof.
  unfold Create.
  destruct (String.eqb_spec (VolumeSpec.Format spec) "nfs") as [Hn|Hn];
    destruct (String.eqb_spec (VolumeSpec.Format spec) "") as [He|He];
    simpl.
  4: { intros [= <- <- <-]. left. split; [done|].
       eexists. split; [done|]. by left. }
  all: destruct (uuid_New w) as [drawn w1]; simpl;
    destruct (os_MkdirAll _ _ w1) as [[e|] w2] eqn:Hmk;
    [ intros [= <- <- <-]; left; split; [done|];
      exists e; split; [done|]; by right; left
    | destruct (time_Now w2) as [ctime w3];
      destruct (time_Now w3) as [lastScan w4];
      match goal with
      | |- context [CreateVol ?v w4] =>
          destruct (CreateVol v w4) as [[e|] w5] eqn:Hcr;
          [ intros [= <- <- <-]; left; split; [done|];
            exists e; split; [done|]; right; right; by exists v, w4
          | destruct (UpdateVol v w5) as [err6 w6] eqn:Hup;
            simpl; intros [= <- <- <-]; right; split; [done|];
            by exists v, w4, w5 ]
      end ].
Qed.

(** X13. After a [Create] that returned no error, on an enumerator that
    returns what was last written, the record under the returned id has the
    requested locator and spec, format "nfs", state [VolumeAvailable], a
    device path under the driver's mount point and no attach path. *)
Theorem Create_then_GetVol d locator opt spec w id w' :
  returns_updates ->
  Create d locator opt spec w = ((id, None), w') ->
  exists v, GetVol id w' = (v, None) /\
            ID v = id /\ Locator v = locator /\ Spec v = Some spec /\
            Format v = "nfs" /\ State v = VolumeAvailable /\
            DevicePath v = nfsMountPath ++ id /\ AttachPath v = "".
Proof. apply Create_stored_record. Qed.

(** X14. A volume just created is not mounted: [Unmount] on it fails and
    changes nothing; and [Mount] on it does not panic, its record having a
    spec. *)
Theorem Create_then_Unmount_Mount d locator opt spec w id w'
    (mountpath : string) :
  returns_updates ->
  Create d locator opt spec w = ((id, None), w') ->
  Unmount d id mountpath w' =
    (Some (errorString ("Device " ++ id ++ " not mounted")), w') /\
  Mount d id mountpath w' <> None.
Proof.
  intros Hlaw HC.
  destruct (Create_stored_record d locator opt spec w id w' Hlaw HC)
    as (v & HGet & _ & _ & Hspec & _ & _ & _ & Hpath).
  split; [by apply (Unmount_unmounted d id mountpath w' v)|].
  unfold Mount. rewrite HGet, Hspec.
  destruct (syscall_Unmount mountpath 0 w') as [r0 w0].
  by destruct (syscall_Mount _ _ _ _ _ w0) as [[e|] w1].
Qed.

(** X15. When the lookup of the volume fails, [Mount], [Unmount] and
    [Delete] return the lookup error and do nothing else. *)
Theorem unknown_volume d id (mountpath : string) w v (e : error) :
  GetVol id w = (v, Some e) ->
  Mount d id mountpath w = Some (Some e, w) /\
  Unmount d id mountpath w = (Some e, w) /\
  Delete d id w = (Some e, w).
Proof.
  intros HGet. unfold Mount, Unmount, Delete. by rewrite HGet.
Qed.


(** X17. [Mount] then [Unmount], both without error, on a volume that was
    not mounted: the path unmounted is the one mounted, whatever path
    [Unmount] was given, and the record is again what it was before the
    [Mount]. *)
Theorem Mount_then_Unmount d id (mountpath mountpath' : string) w w1 w2 v :
  returns_updates ->
  GetVol id w = (v, None) -> ID v = id -> AttachPath v = "" ->
  Mount d id mountpath w = Some (None, w1) ->
  Unmount d id mountpath' w1 = (None, w2) ->
  (exists w', syscall_Unmount mountpath 0 w1 = (None, w')) /\
  GetVol id w2 = (v, None).
Proof.
  intros Hlaw HGet Hid Hpath HM HU.
  assert (GetVol id w1 = (set_AttachPath mountpath v, None)) as HGet1.
  { destruct (Mount_ok_inv d id mountpath w w1 v HGet HM)
      as (spec & w0 & _ & HUp).
    apply Hlaw in HUp. simpl in HUp. by rewrite Hid in HUp. }
  destruct (Unmount_ok_inv d id mountpath' w1 w2 _ HGet1 HU)
    as (w' & Hsys & HUp).
  simpl in Hsys. split; [by exists w'|].
  apply Hlaw in HUp. simpl in HUp.
  by rewrite Hid, set_AttachPath_undo in HUp.
Qed.

(** X18. After an [Unmount] that returned no error, a second [Unmount] of
    the volume fails with the not-mounted error and changes nothing. *)
Theorem Unmount_twice d id (mountpath mountpath' : string) w w' v :
  returns_updates ->
  GetVol id w = (v, None) -> ID v = id ->
  Unmount d id mountpath w = (None, w') ->
  Unmount d id mountpath' w' =
    (Some (errorString ("Device " ++ id ++ " not mounted")), w').
Proof.
  intros Hlaw HGet Hid HU.
  destruct (Unmount_ok_inv d id mountpath w w' v HGet HU)
    as (w1 & _ & HUp).
  apply Hlaw in HUp. simpl in HUp. rewrite Hid in HUp.
  by apply (Unmount_unmounted d id mountpath' w' _ HUp).
Qed.

(** X19. [Delete] of a volume whose lookup succeeds removes the directory
    at the record's device path and then drops the record: its result is
    that of [DeleteVol], whatever [os.Remove] returned and whether or not the
    volume has an attach path. *)
Theorem Delete_ignores_Remove d id w v (r : option error) w1 :
  GetVol id w = (v, None) ->
  os_Remove (DevicePath v) w = (r, w1) ->
  Delete d id w = DeleteVol id w1.
Proof.
  intros HGet HR. unfold Delete. rewrite HGet, HR.
  by destruct (DeleteVol id w1) as [[e|] w2].
Qed.

End lifecycle.

(** The recording world returns what was last written under an id. *)
Lemma World_returns_updates : returns_updates (W := World).
Proof.
  intros v w w' [= <-]. unfold GetVol; simpl.
  by rewrite lookup_insert_eq.
Qed.

Lemma New_nfs_without_path_witness :
  volume.New Name ∅ nfsRegistry world0 =
    ((None, Some (errorString "No NFS path provided")),
     (nfsRegistry, world0)).
Proof.
  exact (New_nfs_without_path nfsRegistry ∅ world0 eq_refl eq_refl eq_refl).
Defined.

Lemma Init_empty_server_witness :
  Init (<["server" := ""]> bindParams) world0 = Init bindParams world0 /\
  forall path w1 r w2,
    bindParams !! "path" = Some path ->
    os_MkdirAll nfsMountPath perm0744 world0 = (None, w1) ->
    syscall_Unmount nfsMountPath 0 w1 = (r, w2) ->
    Init bindParams world0 =
      match syscall_Mount path nfsMountPath "" MS_BIND "" w2 with
      | (Some e, w3) => ((None, Some e), w3)
      | (None, w3) =>
          ((Some {| nfsServer := ""; nfsPath := path |}, None), w3)
      end.
Proof. exact (Init_empty_server bindParams world0 eq_refl). Defined.

Lemma Create_unsupported_format_witness :
  Create bindDriver locatorVol1 reuseIfExists specExt4 world0 =
    ((BadVolumeID,
      Some (errorString "Unsupported filesystem format: ext4")), world0).
Proof.
  apply (Create_unsupported_format bindDriver locatorVol1 reuseIfExists
           specExt4 world0); simpl; discriminate.
Defined.

(** The uuid drawn is that of a volume on record: [CreateVol] refuses. *)
Lemma Create_id_or_BadVolumeID_witness :
  let out := Create bindDriver locatorVol1 reuseIfExists specNfs worldMounted in
  out.1 = (BadVolumeID, Some (errorString "Key already exists")) /\
  ((BadVolumeID = BadVolumeID /\
    exists e, Some (errorString "Key already exists") = Some e /\
      ((VolumeSpec.Format specNfs <> "nfs" /\ VolumeSpec.Format specNfs <> "" /\
        out.2 = worldMounted) \/
       os_MkdirAll (nfsMountPath ++ "uuid-1") perm0744
         (uuid_New worldMounted).2 = (Some e, out.2) \/
       (exists v w4, ID v = "uuid-1" /\ CreateVol v w4 = (Some e, out.2)))) \/
   (BadVolumeID = "uuid-1" /\
    exists v w4 w5, ID v = "uuid-1" /\ CreateVol v w4 = (None, w5) /\
                    UpdateVol v w5
                      = (Some (errorString "Key already exists"), out.2))).
Proof.
  intros out. split; [reflexivity|].
  exact (Create_id_or_BadVolumeID bindDriver locatorVol1 reuseIfExists
           specNfs worldMounted BadVolumeID
           (Some (errorString "Key already exists")) out.2 eq_refl).
Defined.

Lemma Create_then_GetVol_witness :
  exists v, GetVol "uuid-1" world1 = (v, None) /\
            ID v = "uuid-1" /\ Locator v = locatorVol1 /\
            Spec v = Some specNfs /\ Format v = "nfs" /\
            State v = VolumeAvailable /\
            DevicePath v = nfsMountPath ++ "uuid-1" /\ AttachPath v = "".
Proof.
  apply (Create_then_GetVol bindDriver locatorVol1 reuseIfExists specNfs
           world0 "uuid-1" world1).
  - exact World_returns_updates.
  - reflexivity.
Defined.

Lemma Create_then_Unmount_Mount_witness :
  Unmount bindDriver "uuid-1" "/mnt/vol1" world1 =
    (Some (errorString "Device uuid-1 not mounted"), world1) /\
  Mount bindDriver "uuid-1" "/mnt/vol1" world1 <> None.
Proof.
  apply (Create_then_Unmount_Mount bindDriver locatorVol1 reuseIfExists
           specNfs world0 "uuid-1" world1 "/mnt/vol1").
  - exact World_returns_updates.
  - reflexivity.
Defined.

Lemma unknown_volume_witness :
  Mount bindDriver "uuid-9" "/mnt/vol9" world1 = Some (Some ErrEnoEnt, world1) /\
  Unmount bindDriver "uuid-9" "/mnt/vol9" world1 = (Some ErrEnoEnt, world1) /\
  Delete bindDriver "uuid-9" world1 = (Some ErrEnoEnt, world1).
Proof.
  apply (unknown_volume bindDriver "uuid-9" "/mnt/vol9" world1 zeroVolume).
  reflexivity.
Defined.


Lemma Mount_then_Unmount_witness :
  let w1 := snd (default (None, worldUnmounted)
                   (Mount bindDriver "uuid-1" "/mnt/vol1" worldUnmounted)) in
  let w2 := (Unmount bindDriver "uuid-1" "/elsewhere" w1).2 in
  (exists w', syscall_Unmount "/mnt/vol1" 0 w1 = (None, w')) /\
  GetVol "uuid-1" w2 = (unmountedVolume, None).
Proof.
  intros w1 w2.
  apply (Mount_then_Unmount bindDriver "uuid-1" "/mnt/vol1" "/elsewhere"
           worldUnmounted w1 w2 unmountedVolume).
  - exact World_returns_updates.
  - reflexivity.
  - reflexivity.
  - reflexivity.
  - reflexivity.
  - reflexivity.
Defined.

Lemma Unmount_twice_witness :
  let w' := (Unmount bindDriver "uuid-1" "/mnt/vol1" worldMounted).2 in
  Unmount bindDriver "uuid-1" "/mnt/vol1" w' =
    (Some (errorString "Device uuid-1 not mounted"), w').
Proof.
  intros w'.
  apply (Unmount_twice bindDriver "uuid-1" "/mnt/vol1" "/mnt/vol1"
           worldMounted w' mountedVolume).
  - exact World_returns_updates.
  - reflexivity.
  - reflexivity.
  - reflexivity.
Defined.

Lemma Delete_ignores_Remove_witness :
  Delete bindDriver "uuid-1" worldMounted = DeleteVol "uuid-1" worldMounted.
Proof.
  apply (Delete_ignores_Remove bindDriver "uuid-1" worldMounted mountedVolume
           None worldMounted); reflexivity.
Defined.

(** On the recording world: deleting the mounted volume drops its record
    and issues no unmount. *)
Example Delete_mounted_trace :
  let out := Delete bindDriver "uuid-1" worldMounted in
  out.1 = None /\ vols out.2 !! "uuid-1" = None /\ trace out.2 = [].
Proof. vm_compute. repeat split. Qed.

End NfsDriver.

(** ** The volume states *)

Module VolumeStates.
Import api.

(** X20. [VolumeStateAny] is the six state bits and nothing else: a state
    value is left unchanged by masking with it exactly when it is a
    combination of the six states. *)
Theorem VolumeStateAny_mask (state : VolumeState) :
  Z.land state VolumeStateAny = state <-> 0 <= state < 64.
Proof.
  change VolumeStateAny with (Z.ones 6).
  rewrite Z.land_ones by lia. change (2 ^ 6) with 64.
  split.
  - intros <-. apply Z.mod_pos_bound. lia.
  - intros Hr. by apply Z.mod_small.
Qed.

(** The six states are distinct single bits inside the mask. *)
Lemma states_disjoint :
  Forall (fun s => Z.land s VolumeStateAny = s)
    [VolumePending; VolumeAvailable; VolumeAttached; VolumeDetached;
     VolumeError; VolumeDeleted] /\
  Z.land VolumePending VolumeAvailable = 0 /\
  Z.land VolumeAttached VolumeDetached = 0 /\
  Z.land VolumeError VolumeDeleted = 0.
Proof. vm_compute. repeat constructor. Qed.

End VolumeStates.
